(** * Smart Expense Tracker: the reporting and insight pipeline

    A shallow embedding of [backend/server.js] (the prediction, the insight
    engine and the two report routes) and of the SQLite branch of the
    [DatabaseManager] queries it reads from.

    Numbers.  Stored amounts and their sums are finite; they are embedded as
    exact rationals ([Q]), so the binary rounding of the engine's doubles is
    abstracted away.  A JavaScript [/] can leave the finite numbers (division
    by zero), so its result lives in [JS.number], which adds the two infinities
    and NaN.  Rationals have no negative zero: a zero divisor stands for [+0],
    which is what a [reduce] started from the literal [0] produces. *)

From Stdlib Require Import QArith Qround Qabs Qminmax Lia Lqa List String Ascii.
From Stdlib Require Import Bool.
From Stdlib Require Import DecimalString NArith ZArith PeanoNat.
From Stdlib Require Import Sorting.Permutation Sorting.Sorted OrderedTypeEx.
Import ListNotations.

Local Open Scope string_scope.
Local Open Scope list_scope.
Local Open Scope Q_scope.

(** Strict comparison of rationals as a boolean. *)
Definition Qltb (x y : Q) : bool := negb (Qle_bool y x).

(** [arr.reduce((sum, x) => sum + x, 0)] over numbers. *)
Definition Qsum (l : list Q) : Q := fold_left Qplus l 0.

(* ------------------------------------------------------------------ *)
(** ** The JavaScript layer *)

Module JS.

(** What a [throw] or a rejected promise carries. *)
Inductive exn : Type :=
| TypeError
| Rejected (reason : string).

(** Completion of an evaluation: a value, or an exception on its way to
    the nearest [catch]. *)
Inductive completion (A : Type) : Type :=
| Normal (a : A)
| Throw (e : exn).
Arguments Normal {A} a.
Arguments Throw {A} e.

Definition ret {A} (a : A) : completion A := Normal a.

Definition bind {A B} (c : completion A) (k : A -> completion B)
  : completion B :=
  match c with
  | Normal a => k a
  | Throw e => Throw e
  end.

(** [try { body } catch (error) { handler }] where the handler ignores
    the error. *)
Definition try_catch {A} (body : completion A) (handler : A) : A :=
  match body with
  | Normal a => a
  | Throw _ => handler
  end.

(** [arr[i]]: [undefined] (here [None]) out of range. *)
Definition index {A} (arr : list A) (i : nat) : option A := nth_error arr i.

(** [o.f]: reading a property of [undefined] throws a [TypeError]. *)
Definition field {A B} (f : A -> B) (o : option A) : completion B :=
  match o with
  | Some a => Normal (f a)
  | None => Throw TypeError
  end.

(** [await Promise.all([p1, p2, p3])]: the three results, or the
    rejection of a promise that failed. *)
Definition Promise_all3 {A B C}
    (p1 : completion A) (p2 : completion B) (p3 : completion C)
  : completion (A * B * C) :=
  match p1, p2, p3 with
  | Normal a, Normal b, Normal c => Normal (a, b, c)
  | Throw e, _, _ => Throw e
  | _, Throw e, _ => Throw e
  | _, _, Throw e => Throw e
  end.

(** Number values. *)
Inductive number : Type :=
| Fin (q : Q)
| PosInf
| NegInf
| NaN.

(** [a / b]. *)
Definition div (a b : number) : number :=
  match a, b with
  | NaN, _ | _, NaN => NaN
  | Fin x, Fin y =>
      if Qeq_bool y 0 then
        if Qltb 0 x then PosInf else if Qltb x 0 then NegInf else NaN
      else Fin (x / y)
  | Fin _, (PosInf | NegInf) => Fin 0
  | PosInf, Fin y => if Qle_bool 0 y then PosInf else NegInf
  | NegInf, Fin y => if Qle_bool 0 y then NegInf else PosInf
  | (PosInf | NegInf), (PosInf | NegInf) => NaN
  end.

(** [a * b]. *)
Definition mul (a b : number) : number :=
  match a, b with
  | NaN, _ | _, NaN => NaN
  | Fin x, Fin y => Fin (x * y)
  | PosInf, Fin y | Fin y, PosInf =>
      if Qltb 0 y then PosInf else if Qltb y 0 then NegInf else NaN
  | NegInf, Fin y | Fin y, NegInf =>
      if Qltb 0 y then NegInf else if Qltb y 0 then PosInf else NaN
  | PosInf, PosInf | NegInf, NegInf => PosInf
  | PosInf, NegInf | NegInf, PosInf => NegInf
  end.

(** [a > b]: false as soon as one side is NaN. *)
Definition gtb (a b : number) : bool :=
  match a, b with
  | NaN, _ | _, NaN => false
  | Fin x, Fin y => Qltb y x
  | PosInf, (Fin _ | NegInf) => true
  | Fin _, NegInf => true
  | _, _ => false
  end.

(** [Math.max(a, b)] on finite numbers. *)
Definition Math_max (a b : Q) : Q := if Qle_bool b a then a else b.

(** [Math.round(x)] on a finite number: the nearest integer, a tie going
    up. *)
Definition Math_round (x : Q) : Q := inject_Z (Qfloor (x + (1 # 2))).

(** [n.toString()] of a non-negative integer. *)
Definition digits (n : Z) : string :=
  NilZero.string_of_uint (N.to_uint (Z.to_N n)).

Fixpoint zeros (n : nat) : string :=
  match n with
  | O => EmptyString
  | S n' => String "0" (zeros n')
  end.

(** [s.padStart(width, '0')]. *)
Definition padStart0 (width : nat) (s : string) : string :=
  zeros (width - String.length s) ++ s.

Definition pow10 (f : nat) : Q := inject_Z (10 ^ Z.of_nat f).

(** The positional branch of [Number.prototype.toFixed] for
    [0 <= x < 10^21]: the integer [n] nearest to [x * 10^f] (the larger
    one on a tie), printed with the point [f] digits from the right. *)
Definition toFixed_positional (f : nat) (x : Q) : string :=
  let n := Qfloor (x * pow10 f + (1 # 2)) in
  let m := digits n in
  if (f =? 0)%nat then m
  else
    let m := if (String.length m <=? f)%nat then padStart0 (f + 1) m else m in
    let k := String.length m in
    substring 0 (k - f) m ++ "." ++ substring (k - f) f m.

Section ToFixed.

(** [Number::toString] of a finite number of magnitude [10^21] or more
    (exponent notation on the shortest digits of the double): a
    builtin of the engine with no counterpart on exact rationals. *)
Variable exponent_notation : Q -> string.

(** [x.toFixed(f)]. *)
Definition toFixed (f : nat) (x : number) : string :=
  match x with
  | NaN => "NaN"
  | PosInf => "Infinity"
  | NegInf => "-Infinity"
  | Fin q =>
      let s := if Qltb q 0 then "-" else EmptyString in
      let a := Qabs q in
      if Qle_bool (pow10 21) a then s ++ exponent_notation a
      else s ++ toFixed_positional f a
  end.

End ToFixed.

End JS.

Import JS.

Notation "x <- c ;; k" := (JS.bind c (fun x => k))
  (at level 61, c at next level, right associativity).
Notation "' pat <- c ;; k" := (JS.bind c (fun x => match x with pat => k end))
  (at level 61, pat pattern, c at next level, right associativity).

(* ------------------------------------------------------------------ *)
(** ** Data model *)

(** A row of the [expenses] table. *)
Record Expense : Type := mkExpense {
  id : nat;
  date : string;
  category : string;
  amount : Q;
  description : option string;      (* the column is nullable *)
  created_at : string
}.

(** A row of [SELECT category, SUM(amount) as total]. *)
Record CategoryTotal : Type := mkCategoryTotal {
  ct_category : string;
  ct_total : Q
}.

(** A row of [SELECT strftime('%Y-%m', date) as month, SUM(amount) as total];
    [month] is NULL ([None]) where the engine cannot read the date. *)
Record MonthlyTotal : Type := mkMonthlyTotal {
  mt_month : option string;
  mt_total : Q
}.

(** An element of [insights.anomalies]. *)
Record Anomaly : Type := mkAnomaly {
  an_date : string;
  an_amount : Q;
  an_description : option string
}.

Record Insights : Type := mkInsights {
  predictions_nextMonth : Q;
  recommendations : list string;
  anomalies : list Anomaly
}.

Record Report : Type := mkReport {
  expenses : list Expense;
  categoryTotals : list CategoryTotal;
  monthlyTotals : list MonthlyTotal;
  totalSpending : number;
  isOverBudget : bool;
  budgetLimit : Q
}.


(* ------------------------------------------------------------------ *)
(** ** The record store (SQLite branch of [DatabaseManager]) *)

Section Relational.

Context {A : Type}.

(** [ORDER BY]: [before x y] says that [x] may come before [y].  The engine
    leaves the order of ties open; here a row keeps its place among its
    ties (stable insertion). *)
Fixpoint insert_row (before : A -> A -> bool) (x : A) (l : list A) : list A :=
  match l with
  | [] => [x]
  | y :: l' => if before x y then x :: l else y :: insert_row before x l'
  end.

Fixpoint order_by (before : A -> A -> bool) (l : list A) : list A :=
  match l with
  | [] => []
  | x :: l' => insert_row before x (order_by before l')
  end.

Context {K : Type}.

(** One step of [GROUP BY k] with [SUM(v)]: add [v] to the group of [k],
    opening the group at the end when [k] is new. *)
Fixpoint accumulate (eqb : K -> K -> bool) (k : K) (v : Q)
    (groups : list (K * Q)) : list (K * Q) :=
  match groups with
  | [] => [(k, v)]
  | (k', s) :: rest =>
      if eqb k' k then (k', s + v) :: rest
      else (k', s) :: accumulate eqb k v rest
  end.

(** [SELECT key, SUM(amount) ... GROUP BY key], groups in first-seen order. *)
Definition group_sum (eqb : K -> K -> bool) (key : A -> K) (val : A -> Q)
    (rows : list A) : list (K * Q) :=
  fold_left (fun groups r => accumulate eqb (key r) (val r) groups) rows [].

End Relational.

(** Binary collation of TEXT values; NULL sorts below every text. *)
Definition null_compare (a b : option string) : comparison :=
  match a, b with
  | None, None => Eq
  | None, Some _ => Lt
  | Some _, None => Gt
  | Some x, Some y => String.compare x y
  end.

Definition null_eqb (a b : option string) : bool :=
  match null_compare a b with Eq => true | _ => false end.

Definition geb_compare (c : comparison) : bool :=
  match c with Lt => false | _ => true end.

(** [ORDER BY date DESC]. *)
Definition date_desc (x y : Expense) : bool :=
  geb_compare (String.compare (date x) (date y)).

(** [ORDER BY total DESC]. *)
Definition total_desc (x y : CategoryTotal) : bool :=
  Qle_bool (ct_total y) (ct_total x).

(** [ORDER BY month DESC]. *)
Definition month_desc (x y : MonthlyTotal) : bool :=
  geb_compare (null_compare (mt_month x) (mt_month y)).

(** [month.toString().padStart(2, '0')] and [`${year}-${monthStr}`]. *)
Definition yearMonth (year month : nat) : string :=
  let monthStr := padStart0 2 (digits (Z.of_nat month)) in
  digits (Z.of_nat year) ++ "-" ++ monthStr.

(** [date LIKE '<yearMonth>%']: the pattern is made of digits, a dash and
    the final wildcard, so it matches exactly the texts it is a prefix
    of. *)
Definition like_prefix (pattern : string) (e : Expense) : bool :=
  String.prefix pattern (date e).

(** The three queries, on the rows of the table. *)
Definition select_expenses_by_month (pattern : string) (table : list Expense)
  : list Expense :=
  order_by date_desc (filter (like_prefix pattern) table).

(** [SELECT category, SUM(amount) as total FROM expenses
     GROUP BY category ORDER BY total DESC] on a set of rows. *)
Definition category_totals (rows : list Expense) : list CategoryTotal :=
  order_by total_desc
    (map (fun g => mkCategoryTotal (fst g) (snd g))
       (group_sum String.eqb category amount rows)).

Definition select_category_totals (pattern : string) (table : list Expense)
  : list CategoryTotal :=
  category_totals (filter (like_prefix pattern) table).

(** The statements a connection is asked to run. *)
Inductive Query : Type :=
| ExpensesByMonth (pattern : string)
| CategoryTotals (pattern : string)
| MonthlyTotals.

(** The store as a request sees it: the rows of [expenses] in insertion
    order, the statements the driver fails on (with the error it reports),
    and the statements run so far. *)
Record Store : Type := mkStore {
  table : list Expense;
  fault : Query -> option string;
  issued : list Query
}.

(** Running a statement: it is recorded, and the promise is rejected when
    the driver reports an error, resolved with the rows otherwise. *)
Definition run {R : Type} (q : Query) (rows : list Expense -> R) (db : Store)
  : completion R * Store :=
  (match fault db q with
   | Some err => Throw (Rejected err)
   | None => Normal (rows (table db))
   end,
   mkStore (table db) (fault db) (issued db ++ [q])).

Definition getExpensesByMonth (year month : nat) (db : Store)
  : completion (list Expense) * Store :=
  let pattern := yearMonth year month in
  run (ExpensesByMonth pattern) (select_expenses_by_month pattern) db.

Definition getCategoryTotals (year month : nat) (db : Store)
  : completion (list CategoryTotal) * Store :=
  let pattern := yearMonth year month in
  run (CategoryTotals pattern) (select_category_totals pattern) db.

Section Engine.

(** [strftime('%Y-%m', date)]: the month of a date text as ['YYYY-MM'], or
    NULL where the engine cannot read the text as a date.  A builtin of the
    database engine. *)
Variable strftime_Ym : string -> option string.

(** [Number::toString] beyond [10^21] (see [JS.toFixed]). *)
Variable exponent_notation : Q -> string.

(** [SELECT strftime('%Y-%m', date) as month, SUM(amount) as total
     FROM expenses GROUP BY strftime('%Y-%m', date)], before ordering. *)
Definition month_groups (rows : list Expense) : list MonthlyTotal :=
  map (fun g => mkMonthlyTotal (fst g) (snd g))
    (group_sum null_eqb (fun e => strftime_Ym (date e)) amount rows).

(** [... ORDER BY month DESC LIMIT 6]. *)
Definition monthly_totals (rows : list Expense) : list MonthlyTotal :=
  firstn 6 (order_by month_desc (month_groups rows)).

Definition getMonthlyTotals (db : Store)
  : completion (list MonthlyTotal) * Store :=
  run MonthlyTotals monthly_totals db.

(* ------------------------------------------------------------------ *)
(** ** [backend/server.js] *)

Definition predictNextMonth (monthlyTotals : list MonthlyTotal)
  : completion Q :=
  if (List.length monthlyTotals <? 2)%nat then ret 0
  else
    recent <- field mt_total (index monthlyTotals 0) ;;
    previous <- field mt_total (index monthlyTotals 1) ;;
    let trend := recent - previous in
    ret (Math_max 0 (recent + trend)).

(** The template literal pushed on [insights.recommendations]. *)
Definition recommendation (highest_category : string) (percentage : number)
  : string :=
  "Consider reducing " ++ highest_category ++ " spending ("
    ++ toFixed exponent_notation 1 percentage ++ "% of total)".

Definition generateInsights (expenses : list Expense)
    (categoryTotals : list CategoryTotal) (monthlyTotals : list MonthlyTotal)
  : completion Insights :=
  nextMonth <- predictNextMonth monthlyTotals ;;
  recommendations <-
    (if (0 <? List.length categoryTotals)%nat then
       let total :=
         fold_left (fun sum cat => sum + ct_total cat) categoryTotals 0 in
       let highest := index categoryTotals 0 in
       highest_total <- field ct_total highest ;;
       let percentage := mul (div (Fin highest_total) (Fin total)) (Fin 100) in
       if gtb percentage (Fin 50) then
         highest_category <- field ct_category highest ;;
         ret [recommendation highest_category percentage]
       else ret []
     else ret []) ;;
  anomalies <-
    (if (0 <? List.length expenses)%nat then
       let amounts := map amount expenses in
       let avg :=
         div (Fin (fold_left (fun sum amt => sum + amt) amounts 0))
             (Fin (inject_Z (Z.of_nat (List.length amounts)))) in
       let threshold := mul avg (Fin 2) in
       let anomalies :=
         filter (fun exp => gtb (Fin (amount exp)) threshold) expenses in
       ret (map (fun exp =>
                   mkAnomaly (date exp) (amount exp) (description exp))
              anomalies)
     else ret []) ;;
  ret (mkInsights nextMonth recommendations anomalies).

(** What a route sends back: the status and the JSON body. *)
Inductive Body : Type :=
| ReportBody (report : Report)
| InsightsBody (insights : Insights)
| ErrorBody (error : string).

Record Response : Type := mkResponse {
  status : nat;
  body : Body
}.

(** The three reads both routes start with; [now] is the year and the
    month ([getMonth() + 1]) of the clock. *)
Definition read_all (now : nat * nat) (db : Store)
  : completion (list Expense * list CategoryTotal * list MonthlyTotal)
    * Store :=
  let '(currentYear, currentMonth) := now in
  let '(p1, db1) := getExpensesByMonth currentYear currentMonth db in
  let '(p2, db2) := getCategoryTotals currentYear currentMonth db1 in
  let '(p3, db3) := getMonthlyTotals db2 in
  (Promise_all3 p1 p2 p3, db3).

(** The body of the [try] of [app.get('/report')] once the reads are in. *)
Definition build_report (expenses : list Expense)
    (categoryTotals : list CategoryTotal) (monthlyTotals : list MonthlyTotal)
  : Report :=
  let totalSpending := fold_left (fun sum exp => sum + amount exp) expenses 0 in
  mkReport expenses categoryTotals monthlyTotals
    (div (Fin (Math_round (totalSpending * 100))) (Fin 100))
    (Qltb 5000 totalSpending)
    5000.

(** [app.get('/report')]. *)
Definition get_report (now : nat * nat) (db : Store) : Response * Store :=
  let '(reads, db') := read_all now db in
  (try_catch
     ('(expenses, categoryTotals, monthlyTotals) <- reads ;;
      ret (mkResponse 200
             (ReportBody (build_report expenses categoryTotals monthlyTotals))))
     (mkResponse 500 (ErrorBody "Failed to generate report")),
   db').

(** [app.get('/ai-insights')]. *)
Definition get_ai_insights (now : nat * nat) (db : Store) : Response * Store :=
  let '(reads, db') := read_all now db in
  (try_catch
     ('(expenses, categoryTotals, monthlyTotals) <- reads ;;
      insights <- generateInsights expenses categoryTotals monthlyTotals ;;
      ret (mkResponse 200 (InsightsBody insights)))
     (mkResponse 500 (ErrorBody "Failed to generate insights")),
   db').

End Engine.

(** What the three engines return on a plain ['YYYY-MM-DD'] text: its first
    seven characters.  Used to run the model on concrete tables. *)
Definition iso_month (d : string) : option string := Some (substring 0 7 d).

(** A [created_at] for the rows of the examples. *)
Definition stamp : string := "2024-01-20 09:00:00".

(** Stand-in for the exponent notation when running the model on numbers
    below [10^21], where it is never called. *)
Definition no_exponent (_ : Q) : string := EmptyString.

(** The mean of a list of amounts, as the insight rules word it. *)
Definition mean (amounts : list Q) : Q :=
  Qsum amounts / inject_Z (Z.of_nat (List.length amounts)).


(** The projection of a flagged expense. *)
Definition anomaly_of (exp : Expense) : Anomaly :=
  mkAnomaly (date exp) (amount exp) (description exp).

(** The share of a category total in the sum of all category totals. *)
Definition share (highest : CategoryTotal) (categoryTotals : list CategoryTotal)
  : number :=
  div (Fin (ct_total highest)) (Fin (Qsum (map ct_total categoryTotals))).

(** The sum of the values of the rows whose key is [k]. *)
Definition group_total {A K : Type} (eqb : K -> K -> bool) (key : A -> K)
    (val : A -> Q) (k : K) (rows : list A) : Q :=
  Qsum (map val (filter (fun r => eqb (key r) k) rows)).

(** [groups] is a grouping of [rows]: one entry per key met among the
    rows, each holding the sum of the rows of its key. *)
Definition grouped {A K : Type} (eqb : K -> K -> bool) (key : A -> K)
    (val : A -> Q) (rows : list A) (groups : list (K * Q)) : Prop :=
  NoDup (map fst groups) /\
  (forall k s, In (k, s) groups ->
     s == group_total eqb key val k rows /\ exists r, In r rows /\ key r = k) /\
  (forall r, In r rows -> In (key r) (map fst groups)).

(** The promise a statement settles to. *)
Definition settled {R : Type} (db : Store) (q : Query)
    (rows : list Expense -> R) : completion R :=
  fst (run q rows db).

(** The statements of one request, in the order they are started. *)
Definition reads_of (now : nat * nat) : list Query :=
  let pattern := yearMonth (fst now) (snd now) in
  [ExpensesByMonth pattern; CategoryTotals pattern; MonthlyTotals].

(* ------------------------------------------------------------------ *)
(** ** Writing to the store, and the remaining routes *)

(** The argument of [addExpense]: [{ date, category, amount, description }]. *)
Record ExpenseInput : Type := mkExpenseInput {
  in_date : string;
  in_category : string;
  in_amount : Q;
  in_description : string
}.

(** What [addExpense] resolves to: [{ id: this.lastID, ...expense }]. *)
Record Inserted : Type := mkInserted {
  ins_id : nat;
  ins_expense : ExpenseInput
}.

(** Every statement the manager runs on the [expenses] table. *)
Inductive Statement : Type :=
| Select (q : Query)
| SelectAll
| SelectCount
| InsertExpense (values : ExpenseInput).

(** The database under reads and writes: the rows in rowid order, the
    largest rowid handed out so far (what [AUTOINCREMENT] keeps in
    [sqlite_sequence]), the statements the driver fails on, the
    [CURRENT_TIMESTAMP] the engine gives to the n-th statement, and the
    statements run so far. *)
Record Database : Type := mkDatabase {
  rows : list Expense;
  sequence : nat;
  failing : Statement -> option string;
  clock : nat -> string;
  history : list Statement
}.



Definition ran (s : Statement) (db : Database) (rows' : list Expense)
    (sequence' : nat) : Database :=
  mkDatabase rows' sequence' (failing db) (clock db) (history db ++ [s]).

(** The rowid [AUTOINCREMENT] picks: one more than the largest rowid that
    was ever in the table. *)
Definition next_rowid (db : Database) : nat :=
  S (Nat.max (sequence db) (list_max (map id (rows db)))).

(** [INSERT INTO expenses (date, category, amount, description)
     VALUES (?, ?, ?, ?)]; [created_at] takes its default. *)
Definition addExpense (expense : ExpenseInput) (db : Database)
  : completion Inserted * Database :=
  let stmt := InsertExpense expense in
  match failing db stmt with
  | Some err => (Throw (Rejected err), ran stmt db (rows db) (sequence db))
  | None =>
      let lastID := next_rowid db in
      let row :=
        mkExpense lastID (in_date expense) (in_category expense)
          (in_amount expense) (Some (in_description expense))
          (clock db (List.length (history db))) in
      (Normal (mkInserted lastID expense),
       ran stmt db (rows db ++ [row]) lastID)
  end.

(** [SELECT * FROM expenses ORDER BY date DESC]. *)
Definition getAllExpenses (db : Database)
  : completion (list Expense) * Database :=
  (match failing db SelectAll with
   | Some err => Throw (Rejected err)
   | None => Normal (order_by date_desc (rows db))
   end,
   ran SelectAll db (rows db) (sequence db)).





(** The body of [POST /add-expense] as the form of the front end posts it:
    [date], [category] and [description] are texts or null, [amount] is a
    number or null ([None] is null or a missing key). *)
Record AddExpenseBody : Type := mkAddExpenseBody {
  body_date : option string;
  body_category : option string;
  body_amount : option Q;
  body_description : option string
}.

Inductive AddExpenseReply : Type :=
| ExpenseAdded (message : string) (expense : Inserted)
| AddExpenseError (error : string).

(** [description || '']. *)
Definition or_empty (description : option string) : string :=
  match description with
  | Some s => if (s =? EmptyString)%string then EmptyString else s
  | None => EmptyString
  end.

(** [parseFloat(amount)] of a finite number: the number itself. *)
Definition parseFloat (amount : Q) : Q := amount.

(** [app.post('/add-expense')]. *)
Definition post_add_expense (body : AddExpenseBody) (db : Database)
  : (nat * AddExpenseReply) * Database :=
  let invalid := ((400%nat, AddExpenseError "Invalid data"), db) in
  match body_date body, body_category body, body_amount body with
  | Some date, Some category, Some amount =>
      (* !date || !category || !amount || amount <= 0 *)
      if (date =? EmptyString)%string || (category =? EmptyString)%string
         || Qeq_bool amount 0 || Qle_bool amount 0
      then invalid
      else
        let '(p, db') :=
          addExpense
            (mkExpenseInput date category (parseFloat amount)
               (or_empty (body_description body))) db in
        (try_catch
           (expense <- p ;;
            ret (201%nat, ExpenseAdded "Expense added" expense))
           (500%nat, AddExpenseError "Failed to add expense"),
         db')
  | _, _, _ => invalid
  end.

Inductive ExpensesReply : Type :=
| ExpensesList (expenses : list Expense)
| ExpensesError (error : string).

(** [app.get('/expenses')]. *)
Definition get_expenses (db : Database) : (nat * ExpensesReply) * Database :=
  let '(p, db') := getAllExpenses db in
  (try_catch
     (expenses <- p ;; ret (200%nat, ExpensesList expenses))
     (500%nat, ExpensesError "Failed to fetch expenses"),
   db').

(** The rowids of a table are pairwise distinct. *)
Definition distinct_ids (table : list Expense) : Prop := NoDup (map id table).

(** [a] comes no later than [b] under [ORDER BY date DESC]. *)
Definition newest_first (a b : Expense) : Prop :=
  String.compare (date a) (date b) <> Lt.

(** A text field the route treats as absent: null, missing or empty. *)
Definition missing_text (v : option string) : Prop :=
  v = None \/ v = Some EmptyString.

(** The bodies [POST /add-expense] turns down. *)
Definition rejected_body (body : AddExpenseBody) : Prop :=
  missing_text (body_date body) \/
  missing_text (body_category body) \/
  body_amount body = None \/
  exists amount, body_amount body = Some amount /\ amount <= 0.


(** The number a text of decimal digits writes. *)
Fixpoint number_of_digits (acc : Z) (s : string) : Z :=
  match s with
  | EmptyString => acc
  | String c s' =>
      number_of_digits (10 * acc + (Z.of_nat (nat_of_ascii c) - 48))%Z s'
  end.

(** Years written with four digits and the months of [getMonth() + 1]. *)
Definition calendar_month (year month : nat) : Prop :=
  (1000 <= Z.of_nat year <= 9999)%Z /\ (1 <= Z.of_nat month <= 12)%Z.

(* ------------------------------------------------------------------ *)
(** ** Choosing the backend ([DatabaseManager.initializeDatabase]) *)




Section Initialize.

(** The error, if any, that opening a connection to a backend ends with
    ([initializeSQLite], [initializeMySQL], [initializePostgreSQL]). *)
Variable connection_error : string -> option string.




End Initialize.


(* ------------------------------------------------------------------ *)
(** * Properties *)

(** ** Sums *)

Lemma fold_Qplus_acc (l : list Q) (a : Q) :
  fold_left Qplus l a == a + Qsum l.
Proof.
  unfold Qsum. revert a.
  induction l as [|x l IH]; intro a; simpl.
  - ring.
  - rewrite (IH (a + x)), (IH (0 + x)). ring.
Qed.

Lemma Qsum_cons (x : Q) (l : list Q) : Qsum (x :: l) == x + Qsum l.
Proof.
  unfold Qsum at 1. simpl. rewrite fold_Qplus_acc. ring.
Qed.

Lemma Qsum_app (l1 l2 : list Q) : Qsum (l1 ++ l2) == Qsum l1 + Qsum l2.
Proof.
  induction l1 as [|x l1 IH]; simpl.
  - unfold Qsum at 2. simpl. ring.
  - rewrite !Qsum_cons, IH. ring.
Qed.


(** A [reduce] that adds a projection is the sum of the projected list. *)
Lemma reduce_sum {A : Type} (f : A -> Q) (l : list A) (a : Q) :
  fold_left (fun sum x => sum + f x) l a = fold_left Qplus (map f l) a.
Proof.
  revert a. induction l as [|x l IH]; intro a; simpl; [reflexivity | apply IH].
Qed.

Lemma Qltb_lt (x y : Q) : Qltb x y = true <-> x < y.
Proof.
  unfold Qltb. rewrite negb_true_iff.
  split; intro H.
  - apply Qnot_le_lt. intro Hle. apply Qle_bool_iff in Hle. congruence.
  - destruct (Qle_bool y x) eqn:E; [|reflexivity].
    apply Qle_bool_iff in E. exfalso. exact (Qlt_not_le _ _ H E).
Qed.


(** ** The prediction *)

Lemma Math_max_Qmax (v : Q) : Math_max 0 v = Qmax 0 v.
Proof.
  unfold Math_max, Qmax, GenericMinMax.gmax.
  destruct (Qle_bool v 0) eqn:E.
  - apply Qle_bool_iff in E.
    destruct (0 ?= v) eqn:C; try reflexivity.
    apply Qlt_alt in C. exfalso. exact (Qlt_not_le _ _ C E).
  - destruct (0 ?= v) eqn:C; try reflexivity.
    + apply Qeq_alt in C. assert (H : v <= 0) by (rewrite <- C; apply Qle_refl).
      apply Qle_bool_iff in H. congruence.
    + apply Qgt_alt in C. assert (H : v <= 0) by (apply Qlt_le_weak; exact C).
      apply Qle_bool_iff in H. congruence.
Qed.

(** C2.  With fewer than two periods the prediction is 0; otherwise it is
    the larger of 0 and the most recent total plus the trend (the most recent
    total minus the one before).  So it is 0 on the empty history, 0 on a
    single period of 100, and 200 on the periods 150 and 100. *)
Theorem predictNextMonth_spec :
  (forall monthlyTotals : list MonthlyTotal,
      (List.length monthlyTotals < 2)%nat ->
      predictNextMonth monthlyTotals = Normal 0) /\
  (forall (monthlyTotals : list MonthlyTotal) (m0 m1 : MonthlyTotal),
      (2 <= List.length monthlyTotals)%nat ->
      index monthlyTotals 0 = Some m0 ->
      index monthlyTotals 1 = Some m1 ->
      predictNextMonth monthlyTotals =
      Normal (Qmax 0 (mt_total m0 + (mt_total m0 - mt_total m1)))) /\
  (forall k0 k1 : option string,
      predictNextMonth [] = Normal 0 /\
      predictNextMonth [mkMonthlyTotal k0 100] = Normal 0 /\
      predictNextMonth [mkMonthlyTotal k0 150; mkMonthlyTotal k1 100]
      = Normal 200).
Proof.
  split; [|split].
  - intros l Hlen. unfold predictNextMonth.
    apply Nat.ltb_lt in Hlen. now rewrite Hlen.
  - intros l m0 m1 Hlen H0 H1. unfold predictNextMonth.
    apply Nat.ltb_ge in Hlen. rewrite Hlen, H0, H1. simpl.
    now rewrite Math_max_Qmax.
  - intros k0 k1. repeat split; reflexivity.
Qed.

Lemma predictNextMonth_spec_witness :
  predictNextMonth [] = Normal 0 /\
  predictNextMonth
    [mkMonthlyTotal (Some "2024-03") 80; mkMonthlyTotal (Some "2024-02") 120;
     mkMonthlyTotal (Some "2024-01") 7]
  = Normal (Qmax 0 (80 + (80 - 120))).
Proof.
  split.
  - apply (proj1 predictNextMonth_spec). simpl. lia.
  - apply (proj1 (proj2 predictNextMonth_spec)
             _ (mkMonthlyTotal (Some "2024-03") 80)
             (mkMonthlyTotal (Some "2024-02") 120)).
    + simpl. lia.
    + reflexivity.
    + reflexivity.
Defined.

(** C10.  Two histories of at least two periods that agree on their two
    most recent periods get the same prediction, whatever the older
    ones. *)
Theorem predictNextMonth_two_most_recent
    (l1 l2 : list MonthlyTotal) :
  (2 <= List.length l1)%nat ->
  (2 <= List.length l2)%nat ->
  index l1 0 = index l2 0 ->
  index l1 1 = index l2 1 ->
  predictNextMonth l1 = predictNextMonth l2.
Proof.
  intros H1 H2 E0 E1. unfold predictNextMonth.
  apply Nat.ltb_ge in H1. apply Nat.ltb_ge in H2.
  now rewrite H1, H2, E0, E1.
Qed.

Lemma predictNextMonth_two_most_recent_witness :
  predictNextMonth
    [mkMonthlyTotal (Some "2024-03") 150; mkMonthlyTotal (Some "2024-02") 100;
     mkMonthlyTotal (Some "2024-01") 9000]
  = predictNextMonth
      [mkMonthlyTotal (Some "2024-03") 150; mkMonthlyTotal (Some "2024-02") 100].
Proof.
  apply predictNextMonth_two_most_recent.
  - simpl. lia.
  - simpl. lia.
  - reflexivity.
  - reflexivity.
Defined.

(** The prediction never throws. *)
Lemma predictNextMonth_normal (monthlyTotals : list MonthlyTotal) :
  exists v, predictNextMonth monthlyTotals = Normal v.
Proof.
  unfold predictNextMonth.
  destruct monthlyTotals as [|m0 [|m1 rest]]; simpl; eauto.
Qed.

(** ** Number formatting *)





Section ToFixedProperties.

Variable exponent_notation : Q -> string.


End ToFixedProperties.

(** ** The insight engine *)

(** A percentage is above 50 exactly when the ratio is above one half, also
    on the infinities and NaN. *)
Lemma gtb_percentage (x : number) :
  gtb (mul x (Fin 100)) (Fin 50) = gtb x (Fin 0.5).
Proof.
  destruct x as [q| | |]; try reflexivity.
  simpl. apply eq_true_iff_eq. rewrite !Qltb_lt. split; intro H; lra.
Qed.



Lemma bind_Normal {A B : Type} (a : A) (k : A -> completion B) :
  bind (Normal a) k = k a.
Proof. reflexivity. Qed.

Section InsightEngine.

Variable exponent_notation : Q -> string.

(** The two guarded blocks of [generateInsights] on their own. *)
Lemma generateInsights_normal (expenses : list Expense)
    (categoryTotals : list CategoryTotal) (monthlyTotals : list MonthlyTotal) :
  exists insights,
    generateInsights exponent_notation expenses categoryTotals monthlyTotals
    = Normal insights /\
    predictNextMonth monthlyTotals = Normal (predictions_nextMonth insights) /\
    recommendations insights =
      match categoryTotals with
      | [] => []
      | highest :: _ =>
          if gtb (share highest categoryTotals) (Fin 0.5)
          then [recommendation exponent_notation (ct_category highest)
                  (mul (share highest categoryTotals) (Fin 100))]
          else []
      end /\
    anomalies insights =
      map anomaly_of
        (filter (fun exp => Qltb (2 * mean (map amount expenses)) (amount exp))
           expenses).
Proof.
  destruct (predictNextMonth_normal monthlyTotals) as [v Hv].
  unfold generateInsights.
  set (recs := match categoryTotals with
               | [] => []
               | highest :: _ =>
                   if gtb (share highest categoryTotals) (Fin 0.5)
                   then [recommendation exponent_notation (ct_category highest)
                           (mul (share highest categoryTotals) (Fin 100))]
                   else []
               end).
  assert (Hrecs :
    (if (0 <? List.length categoryTotals)%nat then
       let total :=
         fold_left (fun sum cat => sum + ct_total cat) categoryTotals 0 in
       let highest := index categoryTotals 0 in
       highest_total <- field ct_total highest ;;
       let percentage := mul (div (Fin highest_total) (Fin total)) (Fin 100) in
       if gtb percentage (Fin 50) then
         highest_category <- field ct_category highest ;;
         ret [recommendation exponent_notation highest_category percentage]
       else ret []
     else ret []) = Normal recs).
  { subst recs. destruct categoryTotals as [|highest rest]; [reflexivity|].
    cbn [List.length Nat.ltb Nat.leb index nth_error field bind].
    cbv zeta. rewrite reduce_sum. fold (Qsum (map ct_total (highest :: rest))).
    fold (share highest (highest :: rest)).
    rewrite gtb_percentage.
    destruct (gtb (share highest (highest :: rest)) (Fin 0.5)); reflexivity. }
  set (flagged := filter (fun exp => Qltb (2 * mean (map amount expenses)) (amount exp)) expenses).
  assert (Hanom :
    (if (0 <? List.length expenses)%nat then
       let amounts := map amount expenses in
       let avg :=
         div (Fin (fold_left (fun sum amt => sum + amt) amounts 0))
             (Fin (inject_Z (Z.of_nat (List.length amounts)))) in
       let threshold := mul avg (Fin 2) in
       let anomalies :=
         filter (fun exp => gtb (Fin (amount exp)) threshold) expenses in
       ret (map (fun exp =>
                   mkAnomaly (date exp) (amount exp) (description exp))
              anomalies)
     else ret []) = Normal (map anomaly_of flagged)).
  { subst flagged. destruct expenses as [|e0 rest]; [reflexivity|].
    cbn [List.length Nat.ltb Nat.leb]. cbv zeta.
    remember (e0 :: rest) as expenses eqn:He.
    assert (Hlen : ~ inject_Z (Z.of_nat (List.length (map amount expenses))) == 0).
    { rewrite He. cbn [map List.length]. unfold Qeq. simpl. lia. }
    unfold div at 1.
    destruct (Qeq_bool (inject_Z (Z.of_nat (List.length (map amount expenses)))) 0) eqn:E.
    { apply Qeq_bool_iff in E. contradiction. }
    cbn [mul]. unfold ret, anomaly_of. f_equal. f_equal.
    apply filter_ext. intro exp. cbn [gtb].
    apply eq_true_iff_eq. rewrite !Qltb_lt. unfold mean.
    fold (Qsum (map amount expenses)).
    setoid_replace (2 * (Qsum (map amount expenses) / inject_Z (Z.of_nat (List.length (map amount expenses)))))
      with (Qsum (map amount expenses) / inject_Z (Z.of_nat (List.length (map amount expenses))) * 2) by ring.
    reflexivity. }
  cbv zeta in Hrecs, Hanom. cbv zeta.
  rewrite Hv, bind_Normal. cbv beta.
  rewrite Hrecs, bind_Normal. cbv beta.
  rewrite Hanom, bind_Normal. cbv beta. unfold ret.
  eexists. split; [reflexivity|]. cbn. repeat split; reflexivity.
Qed.

(** C9.  On an empty list of category totals the engine returns normally
    with no recommendation: the block that reads [categoryTotals[0]] and
    divides by the sum of the totals is not entered. *)
Theorem generateInsights_no_category
    (expenses : list Expense) (monthlyTotals : list MonthlyTotal) :
  exists insights,
    generateInsights exponent_notation expenses [] monthlyTotals
    = Normal insights /\
    recommendations insights = [].
Proof.
  destruct (generateInsights_normal expenses [] monthlyTotals)
    as (insights & Hrun & _ & Hrecs & _).
  exists insights. split; assumption.
Qed.



End InsightEngine.

(** The spec's two concentration cases and its anomaly case, run. *)
Example recommendation_at_60_percent :
  generateInsights no_exponent []
    [mkCategoryTotal "Food" 600; mkCategoryTotal "Travel" 400] []
  = Normal (mkInsights 0
              ["Consider reducing Food spending (60.0% of total)"] []).
Proof. vm_compute. reflexivity. Qed.

Example no_recommendation_at_50_percent :
  generateInsights no_exponent []
    [mkCategoryTotal "Food" 500; mkCategoryTotal "Travel" 500] []
  = Normal (mkInsights 0 [] []).
Proof. vm_compute. reflexivity. Qed.

Example anomaly_among_four :
  let exp a := mkExpense 0 "2024-01-15" "Food" a None stamp in
  generateInsights no_exponent [exp 100; exp 100; exp 100; exp 1000] [] []
  = Normal (mkInsights 0 [] [mkAnomaly "2024-01-15" 1000 None]).
Proof. vm_compute. reflexivity. Qed.


(** ** Ordering rows *)

Section OrderBy.

Context {A : Type}.
Variable before : A -> A -> bool.

Lemma insert_row_Permutation (x : A) (l : list A) :
  Permutation (insert_row before x l) (x :: l).
Proof.
  induction l as [|y l IH]; simpl.
  - apply Permutation_refl.
  - destruct (before x y).
    + apply Permutation_refl.
    + apply Permutation_trans with (y :: x :: l).
      * apply perm_skip. exact IH.
      * apply perm_swap.
Qed.

Lemma order_by_Permutation (l : list A) :
  Permutation (order_by before l) l.
Proof.
  induction l as [|x l IH]; simpl.
  - apply perm_nil.
  - apply Permutation_trans with (x :: order_by before l).
    + apply insert_row_Permutation.
    + apply perm_skip. exact IH.
Qed.

Hypothesis before_total : forall x y, before x y = true \/ before y x = true.
Hypothesis before_trans :
  forall x y z, before x y = true -> before y z = true -> before x z = true.

Let precedes (x y : A) : Prop := before x y = true.

Lemma insert_row_sorted (x : A) (l : list A) :
  StronglySorted precedes l -> StronglySorted precedes (insert_row before x l).
Proof.
  induction 1 as [|y l Hs IH Hy]; simpl.
  - constructor; constructor.
  - destruct (before x y) eqn:E.
    + constructor.
      * constructor; assumption.
      * constructor; [exact E|].
        apply Forall_impl with (P := precedes y); [|exact Hy].
        intros z Hz. exact (before_trans _ _ _ E Hz).
    + constructor; [exact IH|].
      apply Forall_forall. intros z Hz.
      apply (Permutation_in _ (insert_row_Permutation x l)) in Hz.
      destruct Hz as [<- | Hz].
      * destruct (before_total x y) as [H|H]; [congruence | exact H].
      * rewrite Forall_forall in Hy. exact (Hy z Hz).
Qed.

Lemma order_by_sorted (l : list A) : StronglySorted precedes (order_by before l).
Proof.
  induction l as [|x l IH]; simpl.
  - constructor.
  - apply insert_row_sorted. exact IH.
Qed.

End OrderBy.

(** In a strongly sorted list every element of a prefix is related to every
    element of the rest. *)
Lemma StronglySorted_app_inv {A : Type} (R : A -> A -> Prop) (l1 l2 : list A) :
  StronglySorted R (l1 ++ l2) ->
  StronglySorted R l1 /\
  forall a b, In a l1 -> In b l2 -> R a b.
Proof.
  induction l1 as [|x l1 IH]; simpl; intro H.
  - split; [constructor | intros a b []].
  - inversion H as [|? ? Hs Hx]; subst.
    destruct (IH Hs) as [Hs1 Hcross].
    rewrite Forall_forall in Hx.
    split.
    + constructor; [exact Hs1|].
      apply Forall_forall. intros z Hz. apply Hx. apply in_or_app. now left.
    + intros a b [<- | Ha] Hb.
      * apply Hx. apply in_or_app. now right.
      * now apply Hcross.
Qed.

(** ** Grouping rows *)

Section GroupBy.

Context {A K : Type}.
Variable eqb : K -> K -> bool.
Hypothesis eqb_eq : forall a b, eqb a b = true <-> a = b.
Variable key : A -> K.
Variable val : A -> Q.

Lemma accumulate_keys (k : K) (v : Q) (groups : list (K * Q)) :
  (In k (map fst groups) /\
   map fst (accumulate eqb k v groups) = map fst groups) \/
  (~ In k (map fst groups) /\
   map fst (accumulate eqb k v groups) = map fst groups ++ [k]).
Proof.
  induction groups as [|[k' s] rest IH]; simpl.
  - right. split; [tauto | reflexivity].
  - destruct (eqb k' k) eqn:E.
    + apply eqb_eq in E. subst k'. left. split; [now left | reflexivity].
    + assert (k' <> k) by (intro Heq; apply eqb_eq in Heq; congruence).
      destruct IH as [[Hin Hmap] | [Hnin Hmap]]; simpl; rewrite Hmap.
      * left. split; [now right | reflexivity].
      * right. split; [tauto | reflexivity].
Qed.


Lemma accumulate_In (k : K) (v : Q) (groups : list (K * Q)) (k' : K) (s' : Q) :
  NoDup (map fst groups) ->
  In (k', s') (accumulate eqb k v groups) ->
  (k' <> k /\ In (k', s') groups) \/
  (k' = k /\ exists s, In (k, s) groups /\ s' = s + v) \/
  (k' = k /\ ~ In k (map fst groups) /\ s' = v).
Proof.
  induction groups as [|[k0 s0] rest IH]; simpl; intros Hnd Hin.
  - destruct Hin as [Heq | []]. inversion Heq; subst. right. right. tauto.
  - inversion Hnd as [|? ? Hk0 Hrest]; subst.
    destruct (eqb k0 k) eqn:E.
    + apply eqb_eq in E. subst k0.
      destruct Hin as [Heq | Hin].
      * inversion Heq; subst. right. left. split; [reflexivity|].
        exists s0. split; [now left | reflexivity].
      * left. split; [|now right].
        intros ->. apply Hk0. apply (in_map fst) in Hin. exact Hin.
    + assert (Hne : k0 <> k) by (intro Heq; apply eqb_eq in Heq; congruence).
      destruct Hin as [Heq | Hin].
      * inversion Heq; subst. left. split; [exact Hne | now left].
      * destruct (IH Hrest Hin) as [[H1 H2] | [[H1 (s & H2 & H3)] | (H1 & H2 & H3)]].
        -- left. split; [exact H1 | now right].
        -- right. left. split; [exact H1|]. exists s. split; [now right | exact H3].
        -- right. right. split; [exact H1|]. split; [|exact H3].
           intros [Heq | Hin']; [congruence | contradiction].
Qed.

Lemma group_total_snoc (k : K) (rows : list A) (r : A) :
  group_total eqb key val k (rows ++ [r])
  == group_total eqb key val k rows + (if eqb (key r) k then val r else 0).
Proof.
  unfold group_total. rewrite filter_app, map_app, Qsum_app. simpl.
  destruct (eqb (key r) k); simpl.
  - rewrite Qsum_cons. change (Qsum []) with 0. ring.
  - change (Qsum []) with 0. ring.
Qed.

Lemma group_total_absent (k : K) (rows : list A) :
  (forall r, In r rows -> key r <> k) ->
  group_total eqb key val k rows == 0.
Proof.
  intro H. unfold group_total.
  induction rows as [|r rows IH]; simpl.
  - reflexivity.
  - destruct (eqb (key r) k) eqn:E.
    + apply eqb_eq in E. exfalso. apply (H r); [now left | exact E].
    + apply IH. intros r' Hr'. apply H. now right.
Qed.

Lemma grouped_step (rows : list A) (groups : list (K * Q)) (r : A) :
  grouped eqb key val rows groups ->
  grouped eqb key val (rows ++ [r]) (accumulate eqb (key r) (val r) groups).
Proof.
  intros (Hnd & Htot & Hcov).
  assert (Hrefl : eqb (key r) (key r) = true) by now apply eqb_eq.
  split; [|split].
  - destruct (accumulate_keys (key r) (val r) groups) as [[_ ->] | [Hnin ->]].
    + exact Hnd.
    + apply (Permutation_NoDup (l := key r :: map fst groups)).
      * apply Permutation_cons_append.
      * constructor; assumption.
  - intros k s Hin.
    destruct (accumulate_In _ _ _ _ _ Hnd Hin)
      as [[Hne Hold] | [[-> (s0 & Hold & ->)] | (-> & Hnin & ->)]].
    + destruct (Htot k s Hold) as [Hs (r' & Hr' & Hk)].
      split.
      * rewrite group_total_snoc, Hs.
        destruct (eqb (key r) k) eqn:E.
        -- apply eqb_eq in E. congruence.
        -- ring.
      * exists r'. split; [apply in_or_app; now left | exact Hk].
    + destruct (Htot _ _ Hold) as [Hs _].
      split.
      * rewrite group_total_snoc, Hrefl, Hs. reflexivity.
      * exists r. split; [apply in_or_app; right; now left | reflexivity].
    + split.
      * rewrite group_total_snoc, Hrefl, group_total_absent; [ring|].
        intros r' Hr' Heq. apply Hnin. rewrite <- Heq. now apply Hcov.
      * exists r. split; [apply in_or_app; right; now left | reflexivity].
  - intros r' Hr'. apply in_app_or in Hr'.
    destruct (accumulate_keys (key r) (val r) groups) as [[Hin ->] | [Hnin ->]].
    + destruct Hr' as [Hr' | [<- | []]]; [now apply Hcov | exact Hin].
    + apply in_or_app.
      destruct Hr' as [Hr' | [<- | []]]; [left; now apply Hcov | right; now left].
Qed.

Lemma fold_accumulate_grouped (rows done : list A) (groups : list (K * Q)) :
  grouped eqb key val done groups ->
  grouped eqb key val (done ++ rows)
    (fold_left (fun gs r => accumulate eqb (key r) (val r) gs) rows groups).
Proof.
  revert done groups.
  induction rows as [|r rows IH]; intros done groups H; simpl.
  - rewrite app_nil_r. exact H.
  - replace (done ++ r :: rows) with ((done ++ [r]) ++ rows)
      by (rewrite <- app_assoc; reflexivity).
    apply IH. apply grouped_step. exact H.
Qed.

(** [GROUP BY] yields one row per key met, holding the sum of that key's
    rows. *)
Lemma group_sum_grouped (rows : list A) :
  grouped eqb key val rows (group_sum eqb key val rows).
Proof.
  unfold group_sum. apply (fold_accumulate_grouped rows [] []).
  split; [constructor | split]; intros; contradiction.
Qed.



End GroupBy.

(** ** Orders on the sort keys *)

Lemma null_compare_eq (a b : option string) : null_compare a b = Eq <-> a = b.
Proof.
  destruct a as [x|], b as [y|]; simpl; try (split; congruence).
  change (String.compare x y) with (String_as_OT.cmp x y).
  rewrite String_as_OT.cmp_eq. split; congruence.
Qed.

Lemma null_eqb_eq (a b : option string) : null_eqb a b = true <-> a = b.
Proof.
  rewrite <- null_compare_eq. unfold null_eqb.
  destruct (null_compare a b); split; congruence.
Qed.

Lemma null_compare_antisym (a b : option string) :
  null_compare a b = CompOpp (null_compare b a).
Proof.
  destruct a as [x|], b as [y|]; simpl; try reflexivity.
  apply String.compare_antisym.
Qed.

Lemma null_compare_lt_trans (a b c : option string) :
  null_compare a b = Lt -> null_compare b c = Lt -> null_compare a c = Lt.
Proof.
  destruct a as [x|], b as [y|], c as [z|]; simpl; try congruence.
  intros H1 H2.
  apply String_as_OT.cmp_lt in H1. apply String_as_OT.cmp_lt in H2.
  apply String_as_OT.cmp_lt. exact (String_as_OT.lt_trans _ _ _ H1 H2).
Qed.

(** [a >= b] on keys: [b] is not above [a]. *)
Lemma geb_compare_cases (a b : option string) :
  geb_compare (null_compare a b) = true <->
  a = b \/ null_compare b a = Lt.
Proof.
  split.
  - intro H. destruct (null_compare a b) eqn:E.
    + left. now apply null_compare_eq.
    + discriminate.
    + right. rewrite null_compare_antisym, E. reflexivity.
  - intros [-> | H].
    + assert (E : null_compare b b = Eq) by now apply null_compare_eq.
      rewrite E. reflexivity.
    + rewrite null_compare_antisym, H. reflexivity.
Qed.

Lemma month_desc_total (x y : MonthlyTotal) :
  month_desc x y = true \/ month_desc y x = true.
Proof.
  unfold month_desc.
  rewrite (null_compare_antisym (mt_month x) (mt_month y)).
  destruct (null_compare (mt_month y) (mt_month x)); simpl; auto.
Qed.

Lemma month_desc_trans (x y z : MonthlyTotal) :
  month_desc x y = true -> month_desc y z = true -> month_desc x z = true.
Proof.
  unfold month_desc. rewrite !geb_compare_cases.
  intros [-> | H1] [<- | H2]; auto.
  right. exact (null_compare_lt_trans _ _ _ H2 H1).
Qed.



(** ** Sorted lists *)

Lemma StronglySorted_impl {A : Type} (R R' : A -> A -> Prop) (l : list A) :
  (forall a b, In a l -> In b l -> R a b -> R' a b) ->
  StronglySorted R l -> StronglySorted R' l.
Proof.
  intros Himp Hs. induction Hs as [|x l Hs IH Hx].
  - constructor.
  - constructor.
    + apply IH. intros a b Ha Hb. apply Himp; now right.
    + rewrite Forall_forall in *. intros y Hy.
      apply Himp; [now left | now right | now apply Hx].
Qed.

(** With pairwise distinct keys a descending order is strictly
    descending. *)
Lemma StronglySorted_strict {A K : Type} (f : A -> K) (R R' : A -> A -> Prop)
    (l : list A) :
  (forall a b, R a b -> f a <> f b -> R' a b) ->
  NoDup (map f l) -> StronglySorted R l -> StronglySorted R' l.
Proof.
  intros Himp Hnd Hs. induction Hs as [|x l Hs IH Hx].
  - constructor.
  - simpl in Hnd. inversion Hnd as [|? ? Hnx Hnl]; subst.
    constructor; [now apply IH|].
    rewrite Forall_forall in *. intros y Hy.
    apply Himp; [now apply Hx|].
    intro Heq. apply Hnx. rewrite Heq. now apply in_map.
Qed.

Lemma StronglySorted_firstn {A : Type} (R : A -> A -> Prop) (n : nat)
    (l : list A) :
  StronglySorted R l -> StronglySorted R (firstn n l).
Proof.
  intro H. rewrite <- (firstn_skipn n l) in H.
  apply StronglySorted_app_inv in H. tauto.
Qed.

(** ** The aggregate queries *)




Section MonthlyTotals.

Variable strftime_Ym : string -> option string.

Let month_of (e : Expense) : option string := strftime_Ym (date e).

Lemma month_groups_keys (rows : list Expense) :
  map mt_month (month_groups strftime_Ym rows)
  = map fst (group_sum null_eqb month_of amount rows).
Proof.
  unfold month_groups. rewrite map_map. reflexivity.
Qed.

(** The groups of all months, most recent first. *)
Lemma all_months_sorted (rows : list Expense) :
  StronglySorted (fun a b => null_compare (mt_month b) (mt_month a) = Lt)
    (order_by month_desc (month_groups strftime_Ym rows)).
Proof.
  destruct (group_sum_grouped null_eqb null_eqb_eq month_of amount rows)
    as (Hnd & _ & _).
  apply (StronglySorted_strict mt_month (fun a b => month_desc a b = true)).
  - intros a b Hab Hne. unfold month_desc in Hab.
    apply geb_compare_cases in Hab. tauto.
  - rewrite (Permutation_map mt_month
               (order_by_Permutation month_desc (month_groups strftime_Ym rows))).
    rewrite month_groups_keys. exact Hnd.
  - apply order_by_sorted; [apply month_desc_total | apply month_desc_trans].
Qed.

(** C6.  The monthly totals hold at most 6 entries, strictly descending by
    month key; each entry is the sum of the amounts of the rows of its
    month; and a month that is left out is older than each of the 6 that
    are kept. *)
Theorem monthly_totals_recent (rows : list Expense) :
  let result := monthly_totals strftime_Ym rows in
  (List.length result <= 6)%nat /\
  StronglySorted (fun a b => null_compare (mt_month b) (mt_month a) = Lt)
    result /\
  (forall t, In t result ->
     mt_total t
     == Qsum (map amount
                (filter (fun r => null_eqb (strftime_Ym (date r)) (mt_month t))
                   rows))
     /\ exists r, In r rows /\ strftime_Ym (date r) = mt_month t) /\
  (forall r, In r rows ->
     In (strftime_Ym (date r)) (map mt_month result) \/
     (List.length result = 6%nat /\
      forall t, In t result ->
        null_compare (strftime_Ym (date r)) (mt_month t) = Lt)).
Proof.
  intro result. subst result. unfold monthly_totals.
  set (all := order_by month_desc (month_groups strftime_Ym rows)).
  pose proof (all_months_sorted rows) as Hsorted. fold all in Hsorted.
  pose proof (order_by_Permutation month_desc (month_groups strftime_Ym rows))
    as Hperm. fold all in Hperm.
  destruct (group_sum_grouped null_eqb null_eqb_eq month_of amount rows)
    as (Hnd & Htot & Hcov).
  split; [apply firstn_le_length | split; [| split]].
  - apply StronglySorted_firstn. exact Hsorted.
  - intros t Ht.
    assert (Hall : In t all).
    { rewrite <- (firstn_skipn 6 all). apply in_or_app. now left. }
    apply (Permutation_in _ Hperm) in Hall.
    unfold month_groups in Hall. apply in_map_iff in Hall.
    destruct Hall as ([k s] & <- & Hin). cbn [fst snd mt_total mt_month].
    exact (Htot k s Hin).
  - intros r Hr.
    assert (Hkey : In (month_of r) (map mt_month all)).
    { apply (Permutation_in _ (Permutation_map mt_month (Permutation_sym Hperm))).
      rewrite month_groups_keys. now apply Hcov. }
    apply in_map_iff in Hkey. destruct Hkey as (t & Hkt & Ht).
    rewrite <- (firstn_skipn 6 all) in Ht. apply in_app_or in Ht.
    destruct Ht as [Ht | Ht].
    + left. fold (month_of r). rewrite <- Hkt. now apply in_map.
    + right.
      rewrite <- (firstn_skipn 6 all) in Hsorted.
      apply StronglySorted_app_inv in Hsorted. destruct Hsorted as [_ Hcross].
      split.
      * apply firstn_length_le.
        destruct (Nat.le_gt_cases 6 (List.length all)) as [Hle | Hgt];
          [exact Hle|].
        rewrite skipn_all2 in Ht by lia. contradiction.
      * intros t' Ht'. fold (month_of r). rewrite <- Hkt.
        exact (Hcross t' t Ht' Ht).
Qed.

End MonthlyTotals.

Lemma monthly_totals_recent_witness :
  let rows :=
    [mkExpense 1 "2024-01-15" "Food" 10 None stamp;
     mkExpense 2 "2024-02-16" "Food" 20 None stamp;
     mkExpense 3 "2024-03-17" "Food" 30 None stamp;
     mkExpense 4 "2024-04-18" "Food" 40 None stamp;
     mkExpense 5 "2024-05-19" "Food" 50 None stamp;
     mkExpense 6 "2024-06-20" "Food" 60 None stamp;
     mkExpense 7 "2024-07-21" "Food" 70 None stamp;
     mkExpense 8 "2024-07-22" "Food" 5 None stamp] in
  map mt_month (monthly_totals iso_month rows)
  = [Some "2024-07"; Some "2024-06"; Some "2024-05"; Some "2024-04";
     Some "2024-03"; Some "2024-02"] /\
  forall t, In t (monthly_totals iso_month rows) ->
    null_compare (Some "2024-01") (mt_month t) = Lt.
Proof.
  intro rows. split.
  - reflexivity.
  - destruct (monthly_totals_recent iso_month rows) as (_ & _ & _ & Hout).
    destruct (Hout (mkExpense 1 "2024-01-15" "Food" 10 None stamp))
      as [Hin | [_ Hlt]].
    + simpl. auto.
    + exfalso. vm_compute in Hin. intuition discriminate.
    + exact Hlt.
Defined.

(** ** The report assembler *)





(** ** The two routes *)

Section Routes.

Variable strftime_Ym : string -> option string.
Variable exponent_notation : Q -> string.

Lemma read_all_eq (now : nat * nat) (db : Store) :
  let pattern := yearMonth (fst now) (snd now) in
  read_all strftime_Ym now db
  = (Promise_all3
       (settled db (ExpensesByMonth pattern) (select_expenses_by_month pattern))
       (settled db (CategoryTotals pattern) (select_category_totals pattern))
       (settled db MonthlyTotals (monthly_totals strftime_Ym)),
     mkStore (table db) (fault db) (issued db ++ reads_of now)).
Proof.
  destruct now as [year month]. unfold read_all, reads_of, settled.
  unfold getExpensesByMonth, getCategoryTotals, getMonthlyTotals, run.
  cbn [fst snd table fault issued].
  rewrite <- !app_assoc. reflexivity.
Qed.


Lemma settled_fault {R : Type} (db : Store) (q : Query)
    (rows : list Expense -> R) :
  fault db q <> None -> exists e, settled db q rows = Throw e.
Proof.
  unfold settled, run. cbn [fst].
  destruct (fault db q) as [err|]; [eauto | contradiction].
Qed.

Lemma settled_ext {R : Type} (db db' : Store) (q : Query)
    (rows : list Expense -> R) :
  table db' = table db -> fault db' q = fault db q ->
  settled db' q rows = settled db q rows.
Proof.
  unfold settled, run. cbn [fst]. intros -> ->. reflexivity.
Qed.

(** A rejected read rejects the whole [Promise.all]. *)
Lemma read_all_fault (now : nat * nat) (db : Store) :
  (exists q, In q (reads_of now) /\ fault db q <> None) ->
  exists e, fst (read_all strftime_Ym now db) = Throw e.
Proof.
  intros (q & Hin & Hq). rewrite read_all_eq. cbn [fst].
  set (pattern := yearMonth (fst now) (snd now)).
  unfold reads_of in Hin. fold pattern in Hin.
  destruct (settled db (ExpensesByMonth pattern)
              (select_expenses_by_month pattern)) as [a|e1] eqn:E1;
    [|cbn; eauto].
  destruct (settled db (CategoryTotals pattern)
              (select_category_totals pattern)) as [b|e2] eqn:E2;
    [|cbn; eauto].
  destruct (settled db MonthlyTotals (monthly_totals strftime_Ym))
    as [c|e3] eqn:E3; [|cbn; eauto].
  exfalso.
  destruct Hin as [<- | [<- | [<- | []]]].
  - destruct (settled_fault db _ (select_expenses_by_month pattern) Hq).
    congruence.
  - destruct (settled_fault db _ (select_category_totals pattern) Hq).
    congruence.
  - destruct (settled_fault db _ (monthly_totals strftime_Ym) Hq).
    congruence.
Qed.

(** Both routes leave the rows and the faults of the store as they were and
    run the three statements once each. *)
Lemma routes_store (now : nat * nat) (db : Store) :
  snd (get_report strftime_Ym now db)
  = mkStore (table db) (fault db) (issued db ++ reads_of now) /\
  snd (get_ai_insights strftime_Ym exponent_notation now db)
  = mkStore (table db) (fault db) (issued db ++ reads_of now).
Proof.
  unfold get_report, get_ai_insights. rewrite read_all_eq. cbv zeta.
  split; reflexivity.
Qed.

(** C7.  When the driver fails one of the three statements of a request,
    the report route answers 500 with its error message and no report, the
    insight route answers 500 with its error message and no insights, and
    each route has run the three statements exactly once. *)
Theorem store_failure_aborts (now : nat * nat) (db : Store) :
  (exists q, In q (reads_of now) /\ fault db q <> None) ->
  fst (get_report strftime_Ym now db)
  = mkResponse 500 (ErrorBody "Failed to generate report") /\
  fst (get_ai_insights strftime_Ym exponent_notation now db)
  = mkResponse 500 (ErrorBody "Failed to generate insights") /\
  issued (snd (get_report strftime_Ym now db)) = issued db ++ reads_of now /\
  issued (snd (get_ai_insights strftime_Ym exponent_notation now db))
  = issued db ++ reads_of now.
Proof.
  intro Hfault.
  destruct (routes_store now db) as [Hs1 Hs2]. rewrite Hs1, Hs2.
  destruct (read_all_fault now db Hfault) as [e He].
  unfold get_report, get_ai_insights.
  destruct (read_all strftime_Ym now db) as [reads db'].
  cbn [fst] in He. subst reads.
  repeat split; reflexivity.
Qed.

(** The response of a route is a function of the period, the rows and the
    faults. *)
Lemma routes_ext (now : nat * nat) (db db' : Store) :
  table db' = table db ->
  (forall q, fault db' q = fault db q) ->
  fst (get_report strftime_Ym now db') = fst (get_report strftime_Ym now db) /\
  fst (get_ai_insights strftime_Ym exponent_notation now db')
  = fst (get_ai_insights strftime_Ym exponent_notation now db).
Proof.
  intros Ht Hf. unfold get_report, get_ai_insights.
  rewrite !read_all_eq. cbv zeta. cbn [fst].
  rewrite !(settled_ext db db') by auto.
  split; reflexivity.
Qed.

(** C8.  With the period and the store unchanged, a second run of either
    route answers exactly what the first run answered: the same status and
    the same value in every field of the report or of the insights.  More
    generally the answer only depends on the period, the rows and the
    faults of the store. *)
Theorem report_generation_deterministic (now : nat * nat) (db : Store) :
  fst (get_report strftime_Ym now (snd (get_report strftime_Ym now db)))
  = fst (get_report strftime_Ym now db) /\
  fst (get_ai_insights strftime_Ym exponent_notation now
         (snd (get_ai_insights strftime_Ym exponent_notation now db)))
  = fst (get_ai_insights strftime_Ym exponent_notation now db) /\
  (forall db' : Store,
      table db' = table db ->
      (forall q, fault db' q = fault db q) ->
      fst (get_report strftime_Ym now db')
      = fst (get_report strftime_Ym now db) /\
      fst (get_ai_insights strftime_Ym exponent_notation now db')
      = fst (get_ai_insights strftime_Ym exponent_notation now db)).
Proof.
  destruct (routes_store now db) as [Hs1 Hs2].
  split; [|split].
  - apply routes_ext; rewrite Hs1; reflexivity.
  - apply routes_ext; rewrite Hs2; reflexivity.
  - intros db' Ht Hf. apply routes_ext; assumption.
Qed.


End Routes.


Lemma store_failure_aborts_witness :
  let db :=
    mkStore [mkExpense 1 "2024-01-15" "Food" 1200 None stamp]
      (fun q => match q with
                | MonthlyTotals => Some "SQLITE_BUSY: database is locked"
                | _ => None
                end) [] in
  fst (get_report iso_month (2024, 1)%nat db)
  = mkResponse 500 (ErrorBody "Failed to generate report") /\
  fst (get_ai_insights iso_month no_exponent (2024, 1)%nat db)
  = mkResponse 500 (ErrorBody "Failed to generate insights").
Proof.
  intro db.
  destruct (store_failure_aborts iso_month no_exponent (2024, 1)%nat db)
    as (H1 & H2 & _).
  - exists MonthlyTotals. split; [simpl; auto | simpl; discriminate].
  - split; assumption.
Defined.

Lemma report_generation_deterministic_witness :
  let db :=
    mkStore [mkExpense 1 "2024-01-15" "Food" 1200 None stamp;
             mkExpense 2 "2024-01-16" "Travel" 800 None stamp]
      (fun _ => None) [] in
  let db' := mkStore (table db) (fault db) [MonthlyTotals] in
  fst (get_report iso_month (2024, 1)%nat db')
  = fst (get_report iso_month (2024, 1)%nat db).
Proof.
  intros db db'.
  apply (proj2 (proj2 (report_generation_deterministic
                         iso_month no_exponent (2024, 1)%nat db)) db').
  - reflexivity.
  - intro q. reflexivity.
Defined.

(* ------------------------------------------------------------------ *)
(** * Further properties of the store and the routes *)

(** ** Listing expenses *)

Lemma date_desc_total (x y : Expense) :
  date_desc x y = true \/ date_desc y x = true.
Proof.
  unfold date_desc. rewrite (String.compare_antisym (date x) (date y)).
  destruct (String.compare (date y) (date x)); simpl; auto.
Qed.

Lemma date_desc_trans (x y z : Expense) :
  date_desc x y = true -> date_desc y z = true -> date_desc x z = true.
Proof.
  unfold date_desc.
  change (String.compare (date x) (date y))
    with (null_compare (Some (date x)) (Some (date y))).
  change (String.compare (date y) (date z))
    with (null_compare (Some (date y)) (Some (date z))).
  change (String.compare (date x) (date z))
    with (null_compare (Some (date x)) (Some (date z))).
  rewrite !geb_compare_cases.
  intros [H1 | H1] [H2 | H2].
  - left. congruence.
  - right. rewrite H1. exact H2.
  - right. rewrite <- H2. exact H1.
  - right. exact (null_compare_lt_trans _ _ _ H2 H1).
Qed.

Lemma order_by_date_sorted (l : list Expense) :
  StronglySorted newest_first (order_by date_desc l).
Proof.
  apply (StronglySorted_impl (fun a b => date_desc a b = true)).
  - intros a b _ _ H. unfold newest_first. unfold date_desc in H.
    destruct (String.compare (date a) (date b)); simpl in H; congruence.
  - apply order_by_sorted; [apply date_desc_total | apply date_desc_trans].
Qed.

(** X1.  A month listing that the driver does not fail holds exactly the
    rows of the table whose date text starts with the month pattern, each
    as often as in the table, newest date first. *)
Theorem expenses_by_month_rows (year month : nat) (db : Store) :
  fault db (ExpensesByMonth (yearMonth year month)) = None ->
  exists result,
    fst (getExpensesByMonth year month db) = Normal result /\
    Permutation result
      (filter (fun e => String.prefix (yearMonth year month) (date e))
         (table db)) /\
    (forall e, In e result <->
       In e (table db) /\
       String.prefix (yearMonth year month) (date e) = true) /\
    StronglySorted newest_first result.
Proof.
  intro Hok. unfold getExpensesByMonth, run. cbn [fst]. rewrite Hok.
  eexists. split; [reflexivity|].
  unfold select_expenses_by_month.
  assert (Hperm := order_by_Permutation date_desc
                     (filter (like_prefix (yearMonth year month)) (table db))).
  split; [exact Hperm | split].
  - intro e. rewrite <- (filter_In (like_prefix (yearMonth year month))).
    split; intro H.
    + exact (Permutation_in _ Hperm H).
    + exact (Permutation_in _ (Permutation_sym Hperm) H).
  - apply order_by_date_sorted.
Qed.

Lemma expenses_by_month_rows_witness :
  let db :=
    mkStore [mkExpense 1 "2024-01-15" "Food" 1200 None stamp;
             mkExpense 2 "2024-02-16" "Travel" 800 None stamp;
             mkExpense 3 "2024-01-17" "Shopping" 2500 None stamp]
      (fun _ => None) [] in
  exists result,
    fst (getExpensesByMonth 2024 1 db) = Normal result /\
    StronglySorted newest_first result.
Proof.
  intro db.
  destruct (expenses_by_month_rows 2024 1 db) as (result & Hrun & _ & _ & Hs).
  - reflexivity.
  - exists result. split; assumption.
Defined.

(** ** Month patterns *)

Lemma range_checked (f : Z -> bool) (lo : Z) (count : nat) :
  forallb (fun n : nat => f (lo + Z.of_nat n)%Z) (seq 0 count) = true ->
  forall z : Z, (lo <= z < lo + Z.of_nat count)%Z -> f z = true.
Proof.
  intros H z Hz. rewrite forallb_forall in H.
  specialize (H (Z.to_nat (z - lo))).
  replace (lo + Z.of_nat (Z.to_nat (z - lo)))%Z with z in H by lia.
  apply H. apply in_seq. lia.
Qed.

(** A four-digit year is written with four characters and can be read
    back. *)
Lemma year_digits (z : Z) :
  (1000 <= z <= 9999)%Z ->
  String.length (digits z) = 4%nat /\ number_of_digits 0 (digits z) = z.
Proof.
  intro Hz.
  assert (H : ((String.length (digits z) =? 4)%nat
               && (number_of_digits 0 (digits z) =? z)%Z) = true).
  { apply (range_checked
             (fun z => (String.length (digits z) =? 4)%nat
                       && (number_of_digits 0 (digits z) =? z)%Z)
             1000 (Z.to_nat 9000)); [vm_compute; reflexivity | lia]. }
  apply andb_prop in H. destruct H as [H1 H2].
  apply Nat.eqb_eq in H1. apply Z.eqb_eq in H2. split; assumption.
Qed.

(** A month padded to two digits has two characters and can be read
    back. *)
Lemma month_digits (z : Z) :
  (1 <= z <= 12)%Z ->
  String.length (padStart0 2 (digits z)) = 2%nat /\
  number_of_digits 0 (padStart0 2 (digits z)) = z.
Proof.
  intro Hz.
  assert (H : ((String.length (padStart0 2 (digits z)) =? 2)%nat
               && (number_of_digits 0 (padStart0 2 (digits z)) =? z)%Z)
              = true).
  { apply (range_checked
             (fun z => (String.length (padStart0 2 (digits z)) =? 2)%nat
                       && (number_of_digits 0 (padStart0 2 (digits z)) =? z)%Z)
             1 12); [vm_compute; reflexivity | lia]. }
  apply andb_prop in H. destruct H as [H1 H2].
  apply Nat.eqb_eq in H1. apply Z.eqb_eq in H2. split; assumption.
Qed.

Lemma string_app_assoc (a b c : string) :
  ((a ++ b) ++ c)%string = (a ++ (b ++ c))%string.
Proof.
  induction a as [|x a IH]; simpl; [reflexivity | now rewrite IH].
Qed.

Lemma prefix_same_length (p p' rest : string) :
  String.length p = String.length p' ->
  String.prefix p (p' ++ rest)%string = true -> p = p'.
Proof.
  revert p'. induction p as [|c p IH]; intros [|c' p'] Hlen Hpre;
    simpl in Hlen; try discriminate.
  - reflexivity.
  - simpl in Hpre. destruct (ascii_dec c c') as [->|Hne]; [|discriminate].
    f_equal. apply IH; [lia | exact Hpre].
Qed.

Lemma prefix_refl_app (p rest : string) :
  String.prefix p (p ++ rest)%string = true.
Proof.
  induction p as [|c p IH]; simpl.
  - destruct rest; reflexivity.
  - destruct (ascii_dec c c) as [_|Hne]; [exact IH | contradiction].
Qed.

(** Two texts that start with the same number of characters before the
    rest: if one beginning is a prefix of the other text, what follows it in
    the pattern is a prefix of what follows in the text. *)
Lemma prefix_app_split (a b a' b' : string) :
  String.length a = String.length a' ->
  String.prefix (a ++ b)%string (a' ++ b')%string = true ->
  a = a' /\ String.prefix b b' = true.
Proof.
  revert a'. induction a as [|c a IH]; intros [|c' a'] Hlen Hpre;
    simpl in Hlen; try discriminate.
  - split; [reflexivity | exact Hpre].
  - simpl in Hpre. destruct (ascii_dec c c') as [->|Hne]; [|discriminate].
    destruct (IH a') as [-> Hb]; [lia | exact Hpre |].
    split; [reflexivity | exact Hb].
Qed.

(** X2.  With four-digit years, a date text written under one calendar
    month (the month pattern followed by anything) matches the pattern of a
    month exactly when it is that same month: padding the month to two
    digits keeps January from matching October to December, and no month of
    one year matches another year. *)
Theorem month_patterns_do_not_overlap
    (year month year' month' : nat) (rest : string) :
  calendar_month year month ->
  calendar_month year' month' ->
  (String.prefix (yearMonth year month)
     (yearMonth year' month' ++ rest)%string = true
   <-> year = year' /\ month = month').
Proof.
  intros [Hy Hm] [Hy' Hm'].
  split.
  - unfold yearMonth. cbv zeta. intro Hpre.
    rewrite !string_app_assoc in Hpre.
    destruct (year_digits _ Hy) as [Hlen Hread].
    destruct (year_digits _ Hy') as [Hlen' Hread'].
    destruct (month_digits _ Hm) as [Hmlen Hmread].
    destruct (month_digits _ Hm') as [Hmlen' Hmread'].
    apply prefix_app_split in Hpre; [|congruence].
    destruct Hpre as [Hyear Hpre].
    cbn [append String.prefix] in Hpre.
    destruct (ascii_dec "-" "-") as [_|Hne]; [|contradiction].
    apply prefix_same_length in Hpre; [|congruence].
    split.
    + rewrite Hyear in Hread. rewrite Hread in Hread'. lia.
    + rewrite Hpre in Hmread. rewrite Hmread in Hmread'. lia.
  - intros [<- <-]. apply prefix_refl_app.
Qed.

Lemma month_patterns_do_not_overlap_witness :
  String.prefix (yearMonth 2024 1) (yearMonth 2024 10 ++ "-05")%string = false /\
  String.prefix (yearMonth 2024 1) (yearMonth 2024 1 ++ "-05")%string = true.
Proof.
  assert (H1 : calendar_month 2024 1) by (unfold calendar_month; lia).
  assert (H10 : calendar_month 2024 10) by (unfold calendar_month; lia).
  split.
  - destruct (String.prefix (yearMonth 2024 1)
                (yearMonth 2024 10 ++ "-05")%string) eqn:E; [|reflexivity].
    apply (month_patterns_do_not_overlap 2024 1 2024 10 "-05" H1 H10) in E.
    destruct E as [_ E]. discriminate E.
  - apply (month_patterns_do_not_overlap 2024 1 2024 1 "-05" H1 H1).
    split; reflexivity.
Defined.

(** ** More on the insight engine *)



Section InsightBounds.

Variable exponent_notation : Q -> string.


End InsightBounds.

(** X4.  A prediction is never negative; over two periods or more it is at
    least the most recent total when spending did not go down, and it is 0
    exactly when the most recent total is at most half of the one before. *)
Theorem prediction_bounds (monthlyTotals : list MonthlyTotal) :
  exists v,
    predictNextMonth monthlyTotals = Normal v /\
    0 <= v /\
    forall recent previous older,
      monthlyTotals = recent :: previous :: older ->
      (mt_total previous <= mt_total recent -> mt_total recent <= v) /\
      (v == 0 <-> 2 * mt_total recent <= mt_total previous).
Proof.
  destruct monthlyTotals as [|m0 [|m1 rest]].
  - exists 0. split; [reflexivity|]. split; [apply Qle_refl|]. discriminate.
  - exists 0. split; [reflexivity|]. split; [apply Qle_refl|]. discriminate.
  - exists (Math_max 0 (mt_total m0 + (mt_total m0 - mt_total m1))).
    split; [reflexivity|].
    unfold Math_max.
    destruct (Qle_bool (mt_total m0 + (mt_total m0 - mt_total m1)) 0) eqn:E.
    + apply Qle_bool_iff in E.
      split; [apply Qle_refl|].
      intros recent previous older Heq. inversion Heq; subst.
      split; [intro; lra | split; intro; [lra | reflexivity]].
    + assert (H : 0 < mt_total m0 + (mt_total m0 - mt_total m1)).
      { apply Qnot_le_lt. intro Hle. apply Qle_bool_iff in Hle. congruence. }
      split; [lra|].
      intros recent previous older Heq. inversion Heq; subst.
      split; [intro; lra | split; intro; lra].
Qed.

Lemma prediction_bounds_witness :
  exists v,
    predictNextMonth
      [mkMonthlyTotal (Some "2024-03") 40; mkMonthlyTotal (Some "2024-02") 100]
    = Normal v /\ v == 0.
Proof.
  destruct (prediction_bounds
              [mkMonthlyTotal (Some "2024-03") 40;
               mkMonthlyTotal (Some "2024-02") 100])
    as (v & Hrun & _ & Hcases).
  exists v. split; [exact Hrun|].
  apply (Hcases _ _ [] eq_refl). simpl. lra.
Defined.

(** ** The dominant category *)






(** Printing only depends on the value of a number. *)
Lemma toFixed_value (exponent_notation : Q -> string) (f : nat) (p q : Q) :
  p == q -> Qabs q < pow10 21 ->
  toFixed exponent_notation f (Fin p) = toFixed exponent_notation f (Fin q).
Proof.
  intros Heq Hsmall. unfold toFixed, Qltb.
  assert (Ha : Qabs p == Qabs q) by (rewrite Heq; reflexivity).
  rewrite (Qleb_comp 0 0 (Qeq_refl 0) p q Heq).
  rewrite (Qleb_comp _ _ (Qeq_refl (pow10 21)) _ _ Ha).
  assert (Hb : Qle_bool (pow10 21) (Qabs q) = false).
  { destruct (Qle_bool (pow10 21) (Qabs q)) eqn:E; [|reflexivity].
    apply Qle_bool_iff in E. exfalso. exact (Qlt_not_le _ _ Hsmall E). }
  rewrite Hb. unfold toFixed_positional.
  rewrite (Qfloor_comp (Qabs p * pow10 f + (1 # 2))
             (Qabs q * pow10 f + (1 # 2))) by (rewrite Ha; reflexivity).
  reflexivity.
Qed.

Section DominantCategory.

Variable exponent_notation : Q -> string.


(** X6.  A month spent in a single category, with a positive total, always
    gets the recommendation to reduce that category, at 100.0%. *)
Theorem single_category_recommendation
    (expenses : list Expense) (name : string) (total : Q)
    (monthlyTotals : list MonthlyTotal) :
  0 < total ->
  exists insights,
    generateInsights exponent_notation expenses
      [mkCategoryTotal name total] monthlyTotals = Normal insights /\
    recommendations insights
    = [("Consider reducing " ++ name ++ " spending (100.0% of total)")%string].
Proof.
  intro Hpos.
  destruct (generateInsights_normal exponent_notation expenses
              [mkCategoryTotal name total] monthlyTotals)
    as (insights & Hrun & _ & Hrecs & _).
  exists insights. split; [exact Hrun|]. rewrite Hrecs.
  unfold share. cbn [map ct_total ct_category].
  change (Qsum [total]) with (0 + total). unfold div.
  destruct (Qeq_bool (0 + total) 0) eqn:E.
  { apply Qeq_bool_iff in E. lra. }
  assert (Hone : total / (0 + total) == 1) by (field; lra).
  assert (Hgt : gtb (Fin (total / (0 + total))) (Fin 0.5) = true).
  { cbn [gtb]. apply Qltb_lt. rewrite Hone. reflexivity. }
  rewrite Hgt. cbn [mul]. unfold recommendation.
  rewrite (toFixed_value exponent_notation 1
             (total / (0 + total) * 100) 100).
  - reflexivity.
  - rewrite Hone. reflexivity.
  - reflexivity.
Qed.

End DominantCategory.


Lemma single_category_recommendation_witness :
  exists insights,
    generateInsights no_exponent [] [mkCategoryTotal "Food" 1800] []
    = Normal insights /\
    recommendations insights
    = ["Consider reducing Food spending (100.0% of total)"].
Proof.
  apply (single_category_recommendation no_exponent [] "Food" 1800 []).
  reflexivity.
Defined.

(** ** Adding expenses *)

Lemma next_rowid_fresh (db : Database) (r : Expense) :
  In r (rows db) -> (id r < next_rowid db)%nat.
Proof.
  intro Hin. unfold next_rowid.
  assert (H : (id r <= list_max (map id (rows db)))%nat).
  { pose proof (proj1 (list_max_le (map id (rows db))
                         (list_max (map id (rows db)))) (Nat.le_refl _)) as Hall.
    rewrite Forall_forall in Hall. apply Hall. now apply in_map. }
  lia.
Qed.

Lemma addExpense_stored (expense : ExpenseInput) (db : Database) :
  failing db (InsertExpense expense) = None ->
  let row :=
    mkExpense (next_rowid db) (in_date expense) (in_category expense)
      (in_amount expense) (Some (in_description expense))
      (clock db (List.length (history db))) in
  addExpense expense db
  = (Normal (mkInserted (next_rowid db) expense),
     ran (InsertExpense expense) db (rows db ++ [row]) (next_rowid db)).
Proof.
  intro Hok. unfold addExpense. rewrite Hok. reflexivity.
Qed.

Lemma addExpense_failed (expense : ExpenseInput) (db : Database) (err : string) :
  failing db (InsertExpense expense) = Some err ->
  addExpense expense db
  = (Throw (Rejected err),
     ran (InsertExpense expense) db (rows db) (sequence db)).
Proof.
  intro Hko. unfold addExpense. rewrite Hko. reflexivity.
Qed.

Lemma distinct_ids_snoc (table : list Expense) (row : Expense) :
  distinct_ids table ->
  (forall r, In r table -> (id r < id row)%nat) ->
  distinct_ids (table ++ [row]).
Proof.
  unfold distinct_ids. intros Hnd Hfresh. rewrite map_app. cbn [map].
  apply (Permutation_NoDup (l := id row :: map id table)).
  - apply Permutation_cons_append.
  - constructor; [|exact Hnd].
    intro Hin. apply in_map_iff in Hin. destruct Hin as (r & Heq & Hr).
    specialize (Hfresh r Hr). lia.
Qed.

(** X7.  [POST /add-expense] answers 400 "Invalid data" exactly when the
    date or the category is missing or empty, or the amount is missing, zero
    or negative; it then runs no statement and leaves the database as it
    was.  Any other body reaches the insert and is answered 201 or 500. *)
Theorem add_expense_validation (body : AddExpenseBody) (db : Database) :
  (rejected_body body ->
   post_add_expense body db = ((400%nat, AddExpenseError "Invalid data"), db)) /\
  (~ rejected_body body ->
   exists date category amount,
     body_date body = Some date /\ body_category body = Some category /\
     body_amount body = Some amount /\ 0 < amount /\
     let input :=
       mkExpenseInput date category amount (or_empty (body_description body)) in
     history (snd (post_add_expense body db))
     = history db ++ [InsertExpense input] /\
     (fst (fst (post_add_expense body db)) = 201%nat \/
      fst (fst (post_add_expense body db)) = 500%nat)).
Proof.
  unfold rejected_body, missing_text, post_add_expense.
  destruct body as [[date|] [category|] [amount|] description];
    cbn [body_date body_category body_amount body_description].
  2-8: split; [reflexivity | intro H; exfalso; apply H; tauto].
  destruct (String.eqb_spec date EmptyString) as [->|Hdate].
  { split; [reflexivity | intro H; exfalso; apply H; tauto]. }
  destruct (String.eqb_spec category EmptyString) as [->|Hcat].
  { split; [reflexivity | intro H; exfalso; apply H; tauto]. }
  cbn [orb].
  destruct (Qle_bool amount 0) eqn:Hle.
  { rewrite orb_true_r. apply Qle_bool_iff in Hle.
    split; [reflexivity | intro H; exfalso; apply H].
    right. right. right. exists amount. split; [reflexivity | exact Hle]. }
  assert (Hpos : 0 < amount).
  { apply Qnot_le_lt. intro H. apply Qle_bool_iff in H. congruence. }
  assert (Hz : Qeq_bool amount 0 = false).
  { destruct (Qeq_bool amount 0) eqn:E; [|reflexivity].
    apply Qeq_bool_iff in E. lra. }
  rewrite Hz. cbn [orb].
  split.
  - intros [[H|H] | [[H|H] | [H | (a & Ha & Hle')]]];
      try discriminate; try congruence.
    inversion Ha; subst. lra.
  - intros _. exists date, category, amount.
    repeat split; try reflexivity; try exact Hpos.
    + unfold parseFloat, addExpense.
      destruct (failing db _); reflexivity.
    + unfold parseFloat, addExpense.
      destruct (failing db _); cbn; auto.
Qed.

Lemma add_expense_validation_witness :
  let db := mkDatabase [] 0 (fun _ => None) (fun _ => stamp) [] in
  post_add_expense
    (mkAddExpenseBody (Some "2024-01-15") (Some "Food") (Some 0) None) db
  = ((400%nat, AddExpenseError "Invalid data"), db).
Proof.
  intro db.
  apply (proj1 (add_expense_validation _ db)).
  right. right. right. exists 0. split; [reflexivity | apply Qle_refl].
Defined.

(** A body that passes the checks goes to the insert. *)
Lemma post_add_expense_accepts
    (date' category' : string) (amount' : Q) (description' : option string)
    (db : Database) :
  date' <> EmptyString -> category' <> EmptyString -> 0 < amount' ->
  post_add_expense
    (mkAddExpenseBody (Some date') (Some category') (Some amount') description')
    db
  = (let '(p, db1) :=
       addExpense
         (mkExpenseInput date' category' amount' (or_empty description')) db in
     (try_catch
        (expense <- p ;;
         ret (201%nat, ExpenseAdded "Expense added" expense))
        (500%nat, AddExpenseError "Failed to add expense"),
      db1)).
Proof.
  intros Hdate Hcat Hpos. unfold post_add_expense.
  cbn [body_date body_category body_amount body_description].
  apply String.eqb_neq in Hdate. apply String.eqb_neq in Hcat.
  rewrite Hdate, Hcat.
  assert (Hle : Qle_bool amount' 0 = false).
  { destruct (Qle_bool amount' 0) eqn:E; [|reflexivity].
    apply Qle_bool_iff in E. lra. }
  assert (Hz : Qeq_bool amount' 0 = false).
  { destruct (Qeq_bool amount' 0) eqn:E; [|reflexivity].
    apply Qeq_bool_iff in E. lra. }
  rewrite Hle, Hz. reflexivity.
Qed.

(** X8.  A body with a date, a category and a positive amount, whose
    insert the driver does not fail, is answered 201 with the new id; the
    table gains exactly one row, at its end, holding the posted values (an
    absent description stored as the empty text); the new id is above every
    id of the table, so distinct ids stay distinct.  When the driver fails
    the insert the answer is 500 and the table is unchanged. *)
Theorem add_expense_stores
    (date category : string) (amount : Q) (description : option string)
    (db : Database) :
  date <> EmptyString -> category <> EmptyString -> 0 < amount ->
  let body :=
    mkAddExpenseBody (Some date) (Some category) (Some amount) description in
  let input := mkExpenseInput date category amount (or_empty description) in
  let db' := snd (post_add_expense body db) in
  (failing db (InsertExpense input) = None ->
   exists new_id,
     fst (post_add_expense body db)
     = (201%nat, ExpenseAdded "Expense added" (mkInserted new_id input)) /\
     rows db'
     = rows db ++
       [mkExpense new_id date category amount (Some (or_empty description))
          (clock db (List.length (history db)))] /\
     (forall r, In r (rows db) -> (id r < new_id)%nat) /\
     (distinct_ids (rows db) -> distinct_ids (rows db'))) /\
  (forall err, failing db (InsertExpense input) = Some err ->
     fst (post_add_expense body db)
     = (500%nat, AddExpenseError "Failed to add expense") /\
     rows db' = rows db).
Proof.
  intros Hdate Hcat Hpos body input db'.
  pose proof (post_add_expense_accepts date category amount description db
                Hdate Hcat Hpos) as Hrun.
  fold body input in Hrun.
  subst db'. rewrite Hrun. split.
  - intro Hok. rewrite (addExpense_stored input db Hok). cbv zeta.
    exists (next_rowid db). cbn [fst snd rows ran bind try_catch ret].
    repeat split.
    + intros r Hr. now apply next_rowid_fresh.
    + intro Hnd. apply distinct_ids_snoc; [exact Hnd|].
      intros r Hr. cbn [id]. now apply next_rowid_fresh.
  - intros err Hko. rewrite (addExpense_failed input db err Hko).
    split; reflexivity.
Qed.

Lemma add_expense_stores_witness :
  let db :=
    mkDatabase [mkExpense 7 "2024-01-15" "Food" 1200 None stamp] 7
      (fun _ => None) (fun _ => stamp) [] in
  rows (snd (post_add_expense
               (mkAddExpenseBody (Some "2024-02-01") (Some "Travel") (Some 80.5)
                  None) db))
  = [mkExpense 7 "2024-01-15" "Food" 1200 None stamp;
     mkExpense 8 "2024-02-01" "Travel" 80.5 (Some EmptyString) stamp].
Proof.
  intro db.
  destruct (add_expense_stores "2024-02-01" "Travel" 80.5 None db)
    as [Hok _].
  - discriminate.
  - discriminate.
  - reflexivity.
  - destruct (Hok eq_refl) as (new_id & Hreply & Hrows & _).
    vm_compute in Hreply. inversion Hreply; subst new_id.
    exact Hrows.
Defined.

(** X9.  [GET /expenses] answers 200 with every row of the table, each
    once, newest date first, or 500 when the driver fails the statement; in
    both cases the table is left as it was. *)
Theorem all_expenses_listing (db : Database) :
  (failing db SelectAll = None ->
   exists listing,
     fst (get_expenses db) = (200%nat, ExpensesList listing) /\
     Permutation listing (rows db) /\
     StronglySorted newest_first listing) /\
  (forall err, failing db SelectAll = Some err ->
     fst (get_expenses db)
     = (500%nat, ExpensesError "Failed to fetch expenses")) /\
  rows (snd (get_expenses db)) = rows db.
Proof.
  unfold get_expenses, getAllExpenses. cbn [fst snd rows ran].
  split; [|split; [|reflexivity]].
  - intro Hok. rewrite Hok. eexists. split; [reflexivity|].
    split; [apply order_by_Permutation | apply order_by_date_sorted].
  - intros err Hko. rewrite Hko. reflexivity.
Qed.

Lemma all_expenses_listing_witness :
  let db :=
    mkDatabase [mkExpense 1 "2024-01-15" "Food" 1200 None stamp;
                mkExpense 2 "2024-03-02" "Travel" 800 None stamp]
      2 (fun _ => None) (fun _ => stamp) [] in
  exists listing,
    fst (get_expenses db) = (200%nat, ExpensesList listing) /\
    StronglySorted newest_first listing.
Proof.
  intro db.
  destruct (proj1 (all_expenses_listing db) eq_refl)
    as (listing & Hrun & _ & Hsorted).
  exists listing. split; assumption.
Defined.




(** ** Sample data *)







(** ** One report, three reads *)


Section ReportReads.

Variable strftime_Ym : string -> option string.



End ReportReads.



(** ** Choosing the backend *)





